(** * CarbonExplorer: battery models and capacity search (src/battery.py)

    Shallow embedding of [src/battery.py].  Python floats are modelled by
    exact rationals [Q]; the not-a-number sentinel [np.nan] is a separate
    constructor of [pyval].  Python exceptions (ZeroDivisionError,
    UnboundLocalError) are values of the small error monad [Result].
    The two data-frame columns read by the code ([df_ren[i]] and
    [df_dc_pow["avg_dc_power_mw"][i]]) are given as one aligned list of
    pairs [(ren_mw, avg_dc_power_mw)].

    The one exception is [Battery2.find_and_init_capacity], whose loop
    depends on float rounding: it is modelled over IEEE-754 binary64
    (Stdlib's [SpecFloat]) in module [Battery2_f64]. *)

From Stdlib Require Import ZArith QArith Qminmax Qround Lqa List Lia Bool.
From Stdlib Require SpecFloat.
Import ListNotations.

Open Scope Q_scope.

(** ** Python runtime fragments *)

Inductive pyerr : Type :=
| ZeroDivisionError
| UnboundLocalError
| OutOfFuel. (* a [while] loop that did not stop within the given fuel *)

Inductive Result (A : Type) : Type :=
| Ok : A -> Result A
| Err : pyerr -> Result A.
Arguments Ok {A} _.
Arguments Err {A} _.

Definition rbind {A B : Type} (m : Result A) (f : A -> Result B) : Result B :=
  match m with
  | Ok a => f a
  | Err e => Err e
  end.

Notation "x <- m ;; k" := (rbind m (fun x => k))
  (at level 61, m at next level, right associativity).

(** Strict comparison [a < b] on floats. *)
Definition Qltb (a b : Q) : bool := negb (Qle_bool b a).

(** [a / b], raising ZeroDivisionError when [b == 0]. *)
Definition pydiv (a b : Q) : Result Q :=
  if Qeq_bool b 0 then Err ZeroDivisionError else Ok (a / b).

(** Python's builtin [min(a, b)]: the first argument unless the second is
    strictly smaller. *)
Definition pymin (a b : Q) : Q := if Qltb b a then b else a.

(** A Python float that may be [np.nan]. *)
Inductive pyval : Type :=
| PNum : Q -> pyval
| PNaN : pyval.

(** [x == y] on floats: any comparison with NaN is false. *)
Definition py_eq (x y : pyval) : bool :=
  match x, y with
  | PNum a, PNum b => Qeq_bool a b
  | _, _ => false
  end.

(** [x != y] on floats: true as soon as one side is NaN. *)
Definition py_ne (x y : pyval) : bool := negb (py_eq x y).

(** [x > y] on floats. *)
Definition py_gt (x y : pyval) : bool :=
  match x, y with
  | PNum a, PNum b => Qltb b a
  | _, _ => false
  end.

(** Python's builtin [max(a, b)]: the first argument unless the second is
    strictly greater. *)
Definition pymax (a b : pyval) : pyval := if py_gt b a then b else a.

(** ** The shared battery interface (duck typing in the source) *)

Class BatteryOps (B : Type) := {
  b_charge : Q -> B -> Result (Q * B);
  b_discharge : Q -> B -> Result (Q * B);
  b_is_full : B -> bool
}.

(** ** class Battery (lossless) *)

Module Battery.

Record t := mk { capacity : Q; current_load : Q }.

(** [def charge(self, input_load)] *)
Definition charge (input_load : Q) (b : t) : Q * t :=
  let cl := current_load b + input_load in
  let cl := if Qltb (capacity b) cl then capacity b else cl in
  (cl, mk (capacity b) cl).

(** [def discharge(self, output_load)] *)
Definition discharge (output_load : Q) (b : t) : Q * t :=
  let cl := current_load b - output_load in
  if Qltb cl 0 then
    let lacking_amount := cl in
    (output_load + lacking_amount, mk (capacity b) 0)
  else (output_load, mk (capacity b) cl).

(** [def is_full(self)] *)
Definition is_full (b : t) : bool := Qeq_bool (capacity b) (current_load b).

(** [def find_and_init_capacity(self, input_load)] *)
Definition find_and_init_capacity (input_load : Q) (b : t) : t :=
  mk (capacity b + input_load) (current_load b).

End Battery.

#[global] Instance Battery_ops : BatteryOps Battery.t := {
  b_charge x b := Ok (Battery.charge x b);
  b_discharge x b := Ok (Battery.discharge x b);
  b_is_full := Battery.is_full
}.

(** ** class Battery2 (C/L/C model: efficiencies and linear rate limits) *)

Module Battery2.

Record t := mk {
  capacity : Q; current_load : Q;
  eff_c : Q; eff_d : Q;
  upper_lim_u : Q; upper_lim_v : Q;
  lower_lim_u : Q; lower_lim_v : Q
}.

(** Default coefficients of [__init__] (lithium NMC cell). *)
Definition dflt_eff_c : Q := 98 # 100.
Definition dflt_eff_d : Q := 105 # 100.
Definition dflt_upper_u : Q := - (125 # 1000).
Definition dflt_upper_v : Q := 1.
Definition dflt_lower_u : Q := 5 # 100.
Definition dflt_lower_v : Q := 0.

(** [Battery2(capacity, current_load)] with the default coefficients. *)
Definition init (capacity current_load : Q) : t :=
  mk capacity current_load dflt_eff_c dflt_eff_d
     dflt_upper_u dflt_upper_v dflt_lower_u dflt_lower_v.

Definition set_current_load (b : t) (cl : Q) : t :=
  mk (capacity b) cl (eff_c b) (eff_d b)
     (upper_lim_u b) (upper_lim_v b) (lower_lim_u b) (lower_lim_v b).

(** [def calc_max_charge(self)] *)
Definition calc_max_charge (b : t) : Result Q :=
  a <- pydiv (capacity b) (eff_c b) ;;
  c <- pydiv (upper_lim_v b * capacity b - current_load b)
             (eff_c b - upper_lim_u b) ;;
  Ok (pymin a c).

(** [def calc_max_discharge(self)] *)
Definition calc_max_discharge (b : t) : Result Q :=
  a <- pydiv (capacity b) (eff_d b) ;;
  c <- pydiv (current_load b - lower_lim_v b * capacity b)
             (lower_lim_u b + eff_d b) ;;
  Ok (pymin a c).

(** [def charge(self, input_load)] *)
Definition charge (input_load : Q) (b : t) : Result (Q * t) :=
  max_charge <- calc_max_charge b ;;
  let cl := current_load b + pymin max_charge input_load * eff_c b in
  Ok (cl, set_current_load b cl).

(** [def discharge(self, output_load)] *)
Definition discharge (output_load : Q) (b : t) : Result (Q * t) :=
  max_discharge <- calc_max_discharge b ;;
  let b' := set_current_load b
              (current_load b - pymin max_discharge output_load * eff_d b) in
  if Qltb max_discharge output_load then Ok (max_discharge, b')
  else Ok (output_load, b').

(** [def is_full(self)] *)
Definition is_full (b : t) : bool := Qeq_bool (capacity b) (current_load b).

End Battery2.

#[global] Instance Battery2_ops : BatteryOps Battery2.t := {
  b_charge := Battery2.charge;
  b_discharge := Battery2.discharge;
  b_is_full := Battery2.is_full
}.

(** ** Binary64 floats, for [Battery2.find_and_init_capacity]

    Python floats are IEEE-754 binary64 with round-to-nearest-even:
    Stdlib's [SpecFloat] with [prec = 53] and [emax = 1024]. *)

Definition float := SpecFloat.spec_float.

Definition f_prec : Z := 53.
Definition f_emax : Z := 1024.

Definition f_add (x y : float) : float := SpecFloat.SFadd f_prec f_emax x y.
Definition f_sub (x y : float) : float := SpecFloat.SFsub f_prec f_emax x y.
Definition f_mul (x y : float) : float := SpecFloat.SFmul f_prec f_emax x y.
Definition f_div (x y : float) : float := SpecFloat.SFdiv f_prec f_emax x y.
Definition f_ltb (x y : float) : bool := SpecFloat.SFltb x y.

(** An integer, rounded to the nearest float (exact below [2^53]). *)
Definition f_of_Z (z : Z) : float := SpecFloat.binary_normalize f_prec f_emax z 0 false.

(** The float literal [n / d] of the source (e.g. [0.1] is [f_lit 1 10]):
    the nearest float to the quotient, as Python's parser rounds it. *)
Definition f_lit (n d : Z) : float := f_div (f_of_Z n) (f_of_Z d).

(** Python's [/] on floats: [ZeroDivisionError] on a zero divisor. *)
Definition f_pydiv (a b : float) : Result float :=
  match b with
  | SpecFloat.S754_zero _ => Err ZeroDivisionError
  | _ => Ok (f_div a b)
  end.

(** [class Battery2] with float attributes, for [find_and_init_capacity]. *)
Module Battery2_f64.

Record t := mk {
  capacity : float; current_load : float;
  eff_c : float; eff_d : float;
  upper_lim_u : float; upper_lim_v : float;
  lower_lim_u : float; lower_lim_v : float
}.

(** The default coefficients of [__init__], as float literals. *)
Definition dflt_eff_c : float := f_lit 98 100.
Definition dflt_eff_d : float := f_lit 105 100.
Definition dflt_upper_u : float := f_lit (-125) 1000.
Definition dflt_upper_v : float := f_of_Z 1.
Definition dflt_lower_u : float := f_lit 5 100.
Definition dflt_lower_v : float := f_of_Z 0.

(** [Battery2(capacity, current_load)] with the default coefficients. *)
Definition init (capacity current_load : float) : t :=
  mk capacity current_load dflt_eff_c dflt_eff_d
     dflt_upper_u dflt_upper_v dflt_lower_u dflt_lower_v.

Definition set_capacity (b : t) (c : float) : t :=
  mk c (current_load b) (eff_c b) (eff_d b)
     (upper_lim_u b) (upper_lim_v b) (lower_lim_u b) (lower_lim_v b).

(** The [while True] loop of [find_and_init_capacity], run with [fuel]
    iterations at most. *)
Fixpoint fiic_loop (fuel : nat) (input_load : float) (b : t) (new_capacity : float)
  : Result t :=
  match fuel with
  | O => Err OutOfFuel
  | S fuel' =>
      power_lim <- f_pydiv (f_sub new_capacity (f_mul (lower_lim_v b) (capacity b)))
                           (f_add (lower_lim_u b) (eff_d b)) ;;
      if f_ltb power_lim input_load then
        fiic_loop fuel' input_load (set_capacity b (f_add (capacity b) (f_lit 1 10)))
                  (f_add new_capacity (f_lit 1 10))
      else Ok b
  end.

(** [def find_and_init_capacity(self, input_load)] *)
Definition find_and_init_capacity (fuel : nat) (input_load : float) (b : t)
  : Result t :=
  let b := set_capacity b (f_add (capacity b) (f_mul input_load (eff_d b))) in
  let new_capacity := f_mul input_load (eff_d b) in
  fiic_loop fuel input_load b new_capacity.

End Battery2_f64.

(** ** [sim_battery_247]: feasibility simulator, generic over the battery *)

Section Sim.
Context {B : Type} `{BatteryOps B}.

(** [def sim_battery_247(df_ren, df_dc_pow, b)]; [series] holds the aligned
    pairs [(df_ren[i], df_dc_pow["avg_dc_power_mw"][i])]. *)
Fixpoint sim_battery_247 (series : list (Q * Q)) (b : B) : Result bool :=
  match series with
  | [] => Ok true
  | (ren_mw, df_dc) :: rest =>
      let net_load := ren_mw - df_dc in
      if Qltb 0 net_load then
        r <- b_charge net_load b ;;
        sim_battery_247 rest (snd r)
      else
        r <- b_discharge (- net_load) b ;;
        let actual_discharge := fst r in
        if Qltb actual_discharge (- net_load) then Ok false
        else sim_battery_247 rest (snd r)
  end.

End Sim.

(** ** Binary-search capacity sizers ([..._b1_sim] and [..._b2_sim])

    The two Python functions are identical up to the battery class they
    construct; [new_battery] is that constructor applied to
    [(capacity, current_load)]. *)

Section Sizer.
Context {B : Type} `{BatteryOps B}.
Variable new_battery : Q -> Q -> B.
Variable series : list (Q * Q).

(** The [while u - l > 0.1] loop.  Besides [l] and [u] it keeps the list of
    the midpoints computed so far, most recent first: Python's variable [med]
    is the head of that list (and is unbound while the list is empty). *)
Fixpoint bs_loop (fuel : nat) (l u : Q) (meds : list Q)
  : Result (Q * Q * list Q) :=
  if Qltb (1 # 10) (u - l) then
    match fuel with
    | O => Err OutOfFuel
    | S fuel' =>
        let med := (u + l) / 2 in
        ok <- sim_battery_247 series (new_battery med med) ;;
        if ok then bs_loop fuel' l med (med :: meds)
        else bs_loop fuel' med u (med :: meds)
    end
  else Ok (l, u, meds).

(** Enough iterations for the loop started on [[0, max_bsize]]
    (see [bs_loop_fuel_enough]). *)
Definition bs_fuel (max_bsize : Q) : nat := Z.to_nat (Qceiling (20 * max_bsize)).

Definition calculate_247_battery_capacity_sim (max_bsize : Q) : Result pyval :=
  ok0 <- sim_battery_247 series (new_battery 0 0) ;;
  if ok0 then Ok (PNum 0) else
  st <- bs_loop (bs_fuel max_bsize) 0 max_bsize [] ;;
  let '(l, u, meds) := st in
  if Qeq_bool u max_bsize then Ok PNaN
  else match meds with
       | med :: _ => Ok (PNum med)
       | [] => Err UnboundLocalError
       end.

End Sizer.

(** [def calculate_247_battery_capacity_b2_sim(df_ren, df_dc_pow, max_bsize)] *)
Definition calculate_247_battery_capacity_b2_sim (series : list (Q * Q))
  (max_bsize : Q) : Result pyval :=
  calculate_247_battery_capacity_sim Battery2.init series max_bsize.

(** [def calculate_247_battery_capacity_b1_sim(df_ren, df_dc_pow, max_bsize)] *)
Definition calculate_247_battery_capacity_b1_sim (series : list (Q * Q))
  (max_bsize : Q) : Result pyval :=
  calculate_247_battery_capacity_sim Battery.mk series max_bsize.

(** ** [calculate_247_battery_capacity]: incremental capacity finder *)

Record cstate := mkc {
  c_b : Battery.t;            (* b *)
  c_battery_cap : pyval;      (* battery_cap *)
  c_daily_net_load : Q        (* daily_net_load *)
}.

(** The battery part of one iteration: lines 218-234 of the source. *)
Definition calc_battery_update (ren_mw df_dc : Q) (b : Battery.t) : Battery.t :=
  if Qltb ren_mw df_dc then
    if Qeq_bool (Battery.capacity b) 0 then
      Battery.find_and_init_capacity (df_dc - ren_mw) b
    else
      let load_before := Battery.current_load b in
      if Qeq_bool load_before 0 then
        Battery.find_and_init_capacity (df_dc - ren_mw) b
      else
        let b := snd (Battery.discharge (df_dc - ren_mw) b) in
        let load_after := Battery.current_load b in
        if Qeq_bool load_after 0 then
          Battery.find_and_init_capacity ((df_dc - ren_mw) - load_before) b
        else b
  else
    if Qltb 0 (Battery.capacity b) then snd (Battery.charge (ren_mw - df_dc) b)
    else if Battery.is_full b then Battery.mk 0 0
    else b.

(** One iteration of the [for] loop at index [i]; the boolean is [true]
    when the iteration ends in [break]. *)
Definition calc_body (i : nat) (ren_mw df_dc : Q) (s : cstate) : cstate * bool :=
  let daily_net_load := c_daily_net_load s + (ren_mw - df_dc) in
  let b := calc_battery_update ren_mw df_dc (c_b s) in
  let battery_cap :=
    if Qltb 0 (Battery.capacity b) && py_ne (c_battery_cap s) PNaN
    then pymax (c_battery_cap s) (PNum (Battery.capacity b))
    else c_battery_cap s in
  if Nat.eqb (Nat.modulo (Nat.add i 1) 72) 0 then
    if Qltb daily_net_load 0 then (mkc b PNaN daily_net_load, true)
    else (mkc b battery_cap 0, false)
  else (mkc b battery_cap daily_net_load, false).

Fixpoint calc_loop (i : nat) (series : list (Q * Q)) (s : cstate) : cstate :=
  match series with
  | [] => s
  | (ren_mw, df_dc) :: rest =>
      let '(s', brk) := calc_body i ren_mw df_dc s in
      if brk then s' else calc_loop (S i) rest s'
  end.

Definition calc_init : cstate := mkc (Battery.mk 0 0) (PNum 0) 0.

(** [def calculate_247_battery_capacity(df_ren, df_dc_pow)] *)
Definition calculate_247_battery_capacity (series : list (Q * Q)) : pyval :=
  c_battery_cap (calc_loop 0 series calc_init).

(** ** [apply_battery]: coverage estimator *)

Fixpoint apply_loop (series : list (Q * Q)) (b : Battery2.t) (tot_non_ren_mw : Q)
  : Result Q :=
  match series with
  | [] => Ok tot_non_ren_mw
  | (ren_mw, df_dc) :: rest =>
      let gap := df_dc - ren_mw in
      if Qltb 0 gap then
        r <- Battery2.discharge gap b ;;
        let discharged_amount := fst r in
        apply_loop rest (snd r) (tot_non_ren_mw + gap - discharged_amount)
      else
        r <- Battery2.charge (- gap) b ;;
        apply_loop rest (snd r) tot_non_ren_mw
  end.

(** [def apply_battery(battery_capacity, df_ren, df_dc_pow)] *)
Definition apply_battery (battery_capacity : Q) (series : list (Q * Q)) : Result Q :=
  apply_loop series (Battery2.init battery_capacity battery_capacity) 0.

(** ** Quantities named by the specification *)

(** The total of the positive deficits [avg_dc_power_mw - ren_mw] over the
    series (steps without deficit count 0). *)
Fixpoint spec_positive_deficit_total (series : list (Q * Q)) : Q :=
  match series with
  | [] => 0
  | (ren_mw, df_dc) :: rest =>
      (if Qltb 0 (df_dc - ren_mw) then df_dc - ren_mw else 0)
      + spec_positive_deficit_total rest
  end.

(** The largest cumulative deficit [sum (avg_dc_power_mw - ren_mw)] of a
    prefix of the series (0 for the empty prefix). *)
Fixpoint spec_max_prefix_deficit (series : list (Q * Q)) : Q :=
  match series with
  | [] => 0
  | (ren_mw, df_dc) :: rest =>
      Qmax 0 ((df_dc - ren_mw) + spec_max_prefix_deficit rest)
  end.

(** The maximum cumulative deficit over the series: the largest
    [sum (avg_dc_power_mw - ren_mw)] over a contiguous window of steps
    (0 for the empty window). *)
Fixpoint spec_max_cumulative_deficit (series : list (Q * Q)) : Q :=
  match series with
  | [] => 0
  | _ :: rest =>
      Qmax (spec_max_prefix_deficit series) (spec_max_cumulative_deficit rest)
  end.

(** The net load [ren_mw - avg_dc_power_mw] of each step. *)
Definition net_loads (series : list (Q * Q)) : list Q :=
  map (fun '(ren_mw, df_dc) => ren_mw - df_dc) series.

Fixpoint sumQ (l : list Q) : Q :=
  match l with
  | [] => 0
  | x :: l' => x + sumQ l'
  end.

(** The net load accumulated over the 72-step window that ends at index
    [i] (indices [i - 71 .. i]). *)
Definition spec_window_net_load (series : list (Q * Q)) (i : nat) : Q :=
  sumQ (firstn 72 (skipn (i - 71) (net_loads series))).

(** * Proofs *)

(** ** Comparison and arithmetic helpers *)

Lemma Qltb_cases (a b : Q) :
  (Qltb a b = true /\ a < b) \/ (Qltb a b = false /\ b <= a).
Proof.
  unfold Qltb. destruct (Qle_bool b a) eqn:E.
  - right. split; [reflexivity|]. now apply Qle_bool_iff.
  - left. split; [reflexivity|].
    apply Qnot_le_lt. intro Hle. apply Qle_bool_iff in Hle. congruence.
Qed.

Lemma Qltb_true (a b : Q) : Qltb a b = true -> a < b.
Proof. destruct (Qltb_cases a b) as [[_ H]|[E _]]; [auto|congruence]. Qed.

Lemma Qltb_false (a b : Q) : Qltb a b = false -> b <= a.
Proof. destruct (Qltb_cases a b) as [[E _]|[_ H]]; [congruence|auto]. Qed.

Lemma Qltb_compat (a a' b b' : Q) : a == a' -> b == b' -> Qltb a b = Qltb a' b'.
Proof.
  intros Ea Eb.
  destruct (Qltb_cases a b) as [[-> H]|[-> H]];
  destruct (Qltb_cases a' b') as [[-> H']|[-> H']]; auto; lra.
Qed.

Lemma pymin_le_l (a b : Q) : pymin a b <= a.
Proof. unfold pymin. destruct (Qltb_cases b a) as [[-> H]|[-> H]]; lra. Qed.

Lemma pymin_le_r (a b : Q) : pymin a b <= b.
Proof. unfold pymin. destruct (Qltb_cases b a) as [[-> H]|[-> H]]; lra. Qed.

Lemma pymin_cases (a b : Q) : pymin a b == a \/ pymin a b == b.
Proof. unfold pymin. destruct (Qltb b a); [right|left]; reflexivity. Qed.

Lemma Qdiv_mul_cancel (a c : Q) : ~ c == 0 -> a / c * c == a.
Proof. intros Hc. field. exact Hc. Qed.

Lemma pydiv_ok (a b : Q) : Qeq_bool b 0 = false -> pydiv a b = Ok (a / b).
Proof. intros E. unfold pydiv. now rewrite E. Qed.

Lemma Qeq_bool_false (a b : Q) : Qeq_bool a b = false -> ~ a == b.
Proof. intros E H. apply Qeq_bool_iff in H. congruence. Qed.

(** Turn every [pymin] of the goal and the context into an opaque atom,
    together with its three facts. *)
Ltac pymin_atom a b :=
  let p := fresh "p" in
  pose proof (pymin_le_l a b); pose proof (pymin_le_r a b);
  pose proof (pymin_cases a b);
  set (p := pymin a b) in *; clearbody p.

Ltac pymin_atoms :=
  repeat match goal with
  | |- context [pymin ?a ?b] => pymin_atom a b
  | _ : context [pymin ?a ?b] |- _ => pymin_atom a b
  end.

(** Turn every division by a nonzero constant [c] into an opaque atom [m]
    with the fact [m * c == a]. *)
Ltac qdiv_atom a c :=
  let m := fresh "m" in
  let Hc := fresh "Hc" in
  assert (Hc : ~ c == 0) by (apply Qeq_bool_false; reflexivity);
  pose proof (Qdiv_mul_cancel a c Hc); clear Hc;
  set (m := a / c) in *; clearbody m.

Ltac qdiv_atoms :=
  repeat match goal with
  | |- context [?a / ?c] => qdiv_atom a c
  | _ : context [?a / ?c] |- _ => qdiv_atom a c
  end.

(** Split the [pymin_cases] disjunctions and close by linear arithmetic. *)
Ltac split_lra :=
  repeat match goal with
  | H : _ == _ \/ _ == _ |- _ => destruct H
  end; lra.

(** ** C1: the lossless battery stays within [0, capacity] *)

(** Claim C1: for a lossless [Battery] with
    [0 <= current_load <= capacity] and a non-negative argument, both
    [charge] and [discharge] leave [0 <= current_load <= capacity]. *)
Theorem battery_charge_discharge_in_bounds (b : Battery.t) (x : Q) :
  0 <= Battery.current_load b <= Battery.capacity b -> 0 <= x ->
  (0 <= Battery.current_load (snd (Battery.charge x b))
      <= Battery.capacity (snd (Battery.charge x b))) /\
  (0 <= Battery.current_load (snd (Battery.discharge x b))
      <= Battery.capacity (snd (Battery.discharge x b))).
Proof.
  intros [H0 H1] Hx. unfold Battery.charge, Battery.discharge.
  destruct (Qltb_cases (Battery.capacity b) (Battery.current_load b + x))
    as [[-> Hlt]|[-> Hle]];
  destruct (Qltb_cases (Battery.current_load b - x) 0) as [[-> Hlt']|[-> Hle']];
  cbn; lra.
Qed.

Lemma battery_charge_discharge_in_bounds_witness :
  (0 <= 2 <= 5 /\ 0 <= 4) /\
  (0 <= Battery.current_load (snd (Battery.charge 4 (Battery.mk 5 2)))
      <= Battery.capacity (snd (Battery.charge 4 (Battery.mk 5 2)))) /\
  (0 <= Battery.current_load (snd (Battery.discharge 4 (Battery.mk 5 2)))
      <= Battery.capacity (snd (Battery.discharge 4 (Battery.mk 5 2)))).
Proof.
  split; [split; [split; vm_compute; discriminate | vm_compute; discriminate]|].
  apply (battery_charge_discharge_in_bounds (Battery.mk 5 2) 4);
    [split; vm_compute; discriminate | vm_compute; discriminate].
Defined.

(** ** C3: [Battery2.discharge] *)

(** Claim C3: with [m] the value of [calc_max_discharge()] on the state
    before the call, [discharge(output_load)] sets [current_load] to
    [current_load - min(m, output_load) * eff_d] and returns [m] when
    [m < output_load], [output_load] otherwise; the returned value is
    [min(m, output_load)], and the energy removed from storage is that value
    times [eff_d]. *)
Theorem battery2_discharge_result (b : Battery2.t) (output_load m : Q) :
  Battery2.calc_max_discharge b = Ok m ->
  let ret := if Qltb m output_load then m else output_load in
  let b' := Battery2.set_current_load b
              (Battery2.current_load b - pymin m output_load * Battery2.eff_d b) in
  Battery2.discharge output_load b = Ok (ret, b') /\
  ret == pymin m output_load /\
  Battery2.current_load b - Battery2.current_load b' == ret * Battery2.eff_d b.
Proof.
  intros Hm ret b'. unfold Battery2.discharge. rewrite Hm. cbn [rbind].
  subst ret b'. unfold pymin.
  destruct (Qltb_cases m output_load) as [[-> H]|[-> H]];
  destruct (Qltb_cases output_load m) as [[-> H']|[-> H']];
  cbn [Battery2.current_load Battery2.set_current_load];
  (split; [reflexivity|]); split; try reflexivity; try lra;
  (* the two arguments of [min] are equal *)
  assert (E : m == output_load) by lra; rewrite E; ring.
Qed.

Lemma battery2_discharge_result_witness :
  Battery2.calc_max_discharge (Battery2.init 10 10) = Ok (100000 # 11000) /\
  let b := Battery2.init 10 10 in
  let m := 100000 # 11000 in
  let ret := if Qltb m 20 then m else 20 in
  let b' := Battery2.set_current_load b
              (Battery2.current_load b - pymin m 20 * Battery2.eff_d b) in
  Battery2.discharge 20 b = Ok (ret, b') /\
  ret == pymin m 20 /\
  Battery2.current_load b - Battery2.current_load b' == ret * Battery2.eff_d b.
Proof.
  split; [reflexivity|].
  exact (battery2_discharge_result (Battery2.init 10 10) 20 (100000 # 11000)
           eq_refl).
Defined.

(** ** C2: the default Battery2 keeps [0 <= current_load <= capacity] *)

Lemma battery2_default_charge_bounds (cap cl x : Q) :
  0 <= cl <= cap -> 0 <= x ->
  exists r b', Battery2.charge x (Battery2.init cap cl) = Ok (r, b') /\
    b' = Battery2.init (Battery2.capacity b') (Battery2.current_load b') /\
    0 <= Battery2.current_load b' <= Battery2.capacity b'.
Proof.
  intros [H0 H1] Hx. unfold Battery2.charge, Battery2.calc_max_charge.
  rewrite pydiv_ok by reflexivity. cbn [rbind].
  rewrite pydiv_ok by reflexivity. cbn [rbind].
  eexists _, _. split; [reflexivity|]. split; [reflexivity|].
  cbn [Battery2.current_load Battery2.capacity Battery2.set_current_load
       Battery2.init Battery2.eff_c Battery2.upper_lim_u Battery2.upper_lim_v].
  unfold Battery2.dflt_eff_c, Battery2.dflt_upper_u, Battery2.dflt_upper_v.
  qdiv_atoms. pymin_atoms. split_lra.
Qed.

Lemma battery2_default_discharge_bounds (cap cl x : Q) :
  0 <= cl <= cap -> 0 <= x ->
  exists r b', Battery2.discharge x (Battery2.init cap cl) = Ok (r, b') /\
    b' = Battery2.init (Battery2.capacity b') (Battery2.current_load b') /\
    0 <= Battery2.current_load b' <= Battery2.capacity b'.
Proof.
  intros [H0 H1] Hx. unfold Battery2.discharge, Battery2.calc_max_discharge.
  rewrite pydiv_ok by reflexivity. cbn [rbind].
  rewrite pydiv_ok by reflexivity. cbn [rbind].
  match goal with
  | |- context [if Qltb ?a ?b then _ else _] => destruct (Qltb a b)
  end;
  (eexists _, _; split; [reflexivity|]; split; [reflexivity|]);
  cbn [Battery2.current_load Battery2.capacity Battery2.set_current_load
       Battery2.init Battery2.eff_d Battery2.lower_lim_u Battery2.lower_lim_v];
  unfold Battery2.dflt_eff_d, Battery2.dflt_lower_u, Battery2.dflt_lower_v;
  qdiv_atoms; pymin_atoms; split_lra.
Qed.

(** Claim C2: a [Battery2] built with the default coefficients, with
    [0 <= current_load <= capacity], is kept in that range by every
    [charge(x)] and [discharge(x)] with [x >= 0]; neither call clamps, the
    bound comes from [calc_max_charge] and [calc_max_discharge].  Both calls
    succeed and keep the default coefficients, so the property holds along
    any sequence of calls. *)
Theorem battery2_default_rate_limits_keep_bounds (cap cl x : Q) :
  0 <= cl <= cap -> 0 <= x ->
  (exists r b', Battery2.charge x (Battery2.init cap cl) = Ok (r, b') /\
     b' = Battery2.init (Battery2.capacity b') (Battery2.current_load b') /\
     0 <= Battery2.current_load b' <= Battery2.capacity b') /\
  (exists r b', Battery2.discharge x (Battery2.init cap cl) = Ok (r, b') /\
     b' = Battery2.init (Battery2.capacity b') (Battery2.current_load b') /\
     0 <= Battery2.current_load b' <= Battery2.capacity b').
Proof.
  intros Hcl Hx. split.
  - apply battery2_default_charge_bounds; assumption.
  - apply battery2_default_discharge_bounds; assumption.
Qed.

Lemma battery2_default_rate_limits_keep_bounds_witness :
  (0 <= 3 <= 10 /\ 0 <= 50) /\
  (exists r b', Battery2.charge 50 (Battery2.init 10 3) = Ok (r, b') /\
     b' = Battery2.init (Battery2.capacity b') (Battery2.current_load b') /\
     0 <= Battery2.current_load b' <= Battery2.capacity b') /\
  (exists r b', Battery2.discharge 50 (Battery2.init 10 3) = Ok (r, b') /\
     b' = Battery2.init (Battery2.capacity b') (Battery2.current_load b') /\
     0 <= Battery2.current_load b' <= Battery2.capacity b').
Proof.
  split; [split; [split|]; lra|].
  apply (battery2_default_rate_limits_keep_bounds 10 3 50); [split|]; lra.
Defined.

(** ** C8: [apply_battery] with capacity 0 *)

Lemma set_current_load_init (c l v : Q) :
  Battery2.set_current_load (Battery2.init c l) v = Battery2.init c v.
Proof. reflexivity. Qed.

Lemma apply_loop_zero_capacity (series : list (Q * Q)) :
  forall cl tot, cl == 0 ->
  exists t, apply_loop series (Battery2.init 0 cl) tot = Ok t /\
            t == tot + spec_positive_deficit_total series.
Proof.
  induction series as [|[r d] rest IH]; intros cl tot Hcl.
  - exists tot. split; [reflexivity|]. cbn [spec_positive_deficit_total]. lra.
  - cbn [apply_loop spec_positive_deficit_total].
    destruct (Qltb_cases 0 (d - r)) as [[E Hg]|[E Hg]]; rewrite E.
    + unfold Battery2.discharge, Battery2.calc_max_discharge.
      rewrite pydiv_ok by reflexivity. cbn [rbind].
      rewrite pydiv_ok by reflexivity. cbn [rbind].
      set (md := pymin _ _).
      assert (Hmd : md == 0).
      { subst md. cbn [Battery2.current_load Battery2.capacity Battery2.init
          Battery2.eff_d Battery2.lower_lim_u Battery2.lower_lim_v].
        unfold Battery2.dflt_eff_d, Battery2.dflt_lower_u, Battery2.dflt_lower_v.
        qdiv_atoms. pymin_atoms. split_lra. }
      rewrite (Qltb_compat md 0 (d - r) (d - r) Hmd (Qeq_refl _)), E.
      cbn [rbind fst snd]. rewrite set_current_load_init.
      destruct (IH (Battery2.current_load (Battery2.init 0 cl)
                    - pymin md (d - r) * Battery2.eff_d (Battery2.init 0 cl))
                   (tot + (d - r) - md)) as [t [Ht Et]].
      { cbn [Battery2.current_load Battery2.init Battery2.eff_d].
        unfold Battery2.dflt_eff_d. clearbody md. pymin_atoms. split_lra. }
      exists t. split; [exact Ht|]. lra.
    + unfold Battery2.charge, Battery2.calc_max_charge.
      rewrite pydiv_ok by reflexivity. cbn [rbind].
      rewrite pydiv_ok by reflexivity. cbn [rbind fst snd].
      rewrite set_current_load_init.
      match goal with
      | |- exists t, apply_loop rest (Battery2.init 0 ?v) tot = _ /\ _ =>
          destruct (IH v tot) as [t [Ht Et]]
      end.
      { cbn [Battery2.current_load Battery2.capacity Battery2.init
          Battery2.eff_c Battery2.upper_lim_u Battery2.upper_lim_v].
        unfold Battery2.dflt_eff_c, Battery2.dflt_upper_u, Battery2.dflt_upper_v.
        qdiv_atoms. pymin_atoms. split_lra. }
      exists t. split; [exact Ht|]. lra.
Qed.

(** Claim C8: [apply_battery] with [battery_capacity = 0] returns exactly
    the sum over all steps of the positive deficits
    [avg_dc_power_mw - ren_mw]: the empty lossy battery delivers nothing. *)
Theorem apply_battery_zero_capacity (series : list (Q * Q)) :
  exists t, apply_battery 0 series = Ok t /\
            t == spec_positive_deficit_total series.
Proof.
  destruct (apply_loop_zero_capacity series 0 0 (Qeq_refl 0)) as [t [Ht Et]].
  exists t. split; [exact Ht|]. lra.
Qed.

(** ** The binary-search sizers *)





Section SizerProofs.
Context {B : Type} `{BatteryOps B}.
Variable new_battery : Q -> Q -> B.
Variable series : list (Q * Q).
Hypothesis sim_ok : forall c, exists v, sim_battery_247 series (new_battery c c) = Ok v.






End SizerProofs.

(** ** C5: outcomes of the binary-search sizers *)


(** ** C4: the returned midpoint need not be feasible *)

(** Claim C4 (fails): on the series [[(ren 0, draw 1)]] with
    [max_bsize = 2], the lossless sizer returns the last midpoint [0.9375],
    and a full lossless battery of that capacity fails [sim_battery_247];
    the [Battery2] sizer likewise returns [1.0625], which fails too.  The
    feasible bound at loop exit is [u] (1 and 1.125 respectively). *)
Theorem calculate_247_battery_capacity_sim_returns_infeasible :
  (exists q, calculate_247_battery_capacity_b1_sim [(0, 1)] 2 = Ok (PNum q) /\
     q == 15 # 16 /\
     sim_battery_247 [(0, 1)] (Battery.mk q q) = Ok false) /\
  (exists q, calculate_247_battery_capacity_b2_sim [(0, 1)] 2 = Ok (PNum q) /\
     q == 17 # 16 /\
     sim_battery_247 [(0, 1)] (Battery2.init q q) = Ok false).
Proof.
  split; eexists; (split; [vm_compute; reflexivity|]); split;
    vm_compute; reflexivity.
Qed.

(** ** C6: enough capacity for the simulator *)

Lemma spec_max_prefix_deficit_nonneg (series : list (Q * Q)) :
  0 <= spec_max_prefix_deficit series.
Proof. destruct series as [|[r d] rest]; cbn; [lra|apply Q.le_max_l]. Qed.

Lemma spec_prefix_le_cumulative (series : list (Q * Q)) :
  spec_max_prefix_deficit series <= spec_max_cumulative_deficit series.
Proof.
  destruct series as [|[r d] rest];
    [apply Qle_refl|cbn [spec_max_cumulative_deficit]; apply Q.le_max_l].
Qed.

(** Claim C6, as amended: a lossless [Battery] whose charge covers the
    largest cumulative deficit of any prefix of the series, and whose
    capacity covers the largest cumulative deficit of any contiguous window,
    passes [sim_battery_247]. *)
Theorem sim_battery_247_enough_capacity (series : list (Q * Q)) :
  forall cap cl,
  spec_max_prefix_deficit series <= cl ->
  spec_max_cumulative_deficit series <= cap ->
  sim_battery_247 series (Battery.mk cap cl) = Ok true.
Proof.
  induction series as [|[r d] rest IH]; intros cap cl Hcl Hcap;
    [reflexivity|].
  cbn [spec_max_prefix_deficit spec_max_cumulative_deficit] in Hcl, Hcap.
  apply Q.max_lub_iff in Hcl as [_ Hcl].
  apply Q.max_lub_iff in Hcap as [_ Hcap].
  pose proof (spec_max_prefix_deficit_nonneg rest) as H0.
  pose proof (spec_prefix_le_cumulative rest) as Hpc.
  cbn [sim_battery_247 b_charge b_discharge Battery_ops rbind].
  destruct (Qltb_cases 0 (r - d)) as [[-> Hs]|[-> Hs]].
  - unfold Battery.charge. cbn [Battery.current_load Battery.capacity snd].
    destruct (Qltb_cases cap (cl + (r - d))) as [[-> Hc]|[-> Hc]];
      apply IH; lra.
  - unfold Battery.discharge. cbn [Battery.current_load Battery.capacity].
    destruct (Qltb_cases (cl - - (r - d)) 0) as [[-> Hc]|[-> Hc]];
      [exfalso; lra|].
    cbn [fst snd].
    destruct (Qltb_cases (- (r - d)) (- (r - d))) as [[-> Hc']|[-> Hc']];
      [exfalso; lra|].
    apply IH; lra.
Qed.

Lemma sim_battery_247_enough_capacity_witness :
  (spec_max_prefix_deficit [(0, 1); (2, 0); (0, 1)] <= 1 /\
   spec_max_cumulative_deficit [(0, 1); (2, 0); (0, 1)] <= 1) /\
  sim_battery_247 [(0, 1); (2, 0); (0, 1)] (Battery.mk 1 1) = Ok true.
Proof.
  assert (H1 : spec_max_prefix_deficit [(0, 1); (2, 0); (0, 1)] <= 1)
    by (vm_compute; discriminate).
  assert (H2 : spec_max_cumulative_deficit [(0, 1); (2, 0); (0, 1)] <= 1)
    by (vm_compute; discriminate).
  split; [split; assumption|].
  exact (sim_battery_247_enough_capacity [(0, 1); (2, 0); (0, 1)] 1 1 H1 H2).
Defined.

(** Claim C6 (fails as stated): with the series [[(ren 0, draw 1)]], whose
    maximum cumulative deficit is 1, a lossless battery of capacity 10 that
    starts empty fails [sim_battery_247], and so does a full default
    [Battery2] of capacity 1.05 (its discharge limit is [1.05 / 1.1 < 1]). *)
Lemma sim_battery_247_capacity_above_deficit_counterexample :
  spec_max_cumulative_deficit [(0, 1)] < 10 /\
  sim_battery_247 [(0, 1)] (Battery.mk 10 0) = Ok false /\
  spec_max_cumulative_deficit [(0, 1)] < 105 # 100 /\
  sim_battery_247 [(0, 1)] (Battery2.init (105 # 100) (105 # 100)) = Ok false.
Proof. repeat split; vm_compute; reflexivity. Qed.

(** ** C9: [Battery2.find_and_init_capacity] need not terminate *)

Lemma set_capacity_same (b : Battery2_f64.t) :
  Battery2_f64.set_capacity b (Battery2_f64.capacity b) = b.
Proof. destruct b; reflexivity. Qed.

(** A state of the [while True] loop whose rate check fails, and to whose
    [capacity] and [new_capacity] adding the float [0.1] changes nothing,
    repeats forever: no amount of fuel lets the loop exit. *)
Lemma fiic_loop_stuck (fuel : nat) (x nc : float) (b : Battery2_f64.t) :
  match f_pydiv (f_sub nc (f_mul (Battery2_f64.lower_lim_v b) (Battery2_f64.capacity b)))
                (f_add (Battery2_f64.lower_lim_u b) (Battery2_f64.eff_d b)) with
  | Ok power_lim => f_ltb power_lim x = true
  | Err _ => False
  end ->
  f_add (Battery2_f64.capacity b) (f_lit 1 10) = Battery2_f64.capacity b ->
  f_add nc (f_lit 1 10) = nc ->
  Battery2_f64.fiic_loop fuel x b nc = Err OutOfFuel.
Proof.
  intros Hchk Hcap Hnc.
  induction fuel as [|f IH]; [reflexivity|].
  cbn [Battery2_f64.fiic_loop].
  destruct (f_pydiv (f_sub nc (f_mul (Battery2_f64.lower_lim_v b) (Battery2_f64.capacity b)))
                    (f_add (Battery2_f64.lower_lim_u b) (Battery2_f64.eff_d b)))
    as [pl|e]; [|contradiction].
  cbn [rbind]. rewrite Hchk, Hcap, Hnc, set_capacity_same. exact IH.
Qed.

(** Claim C9 (fails): with binary64 floats, as the source computes, the
    call [Battery2(0, 0).find_and_init_capacity(2e15)] never returns.
    [new_capacity = 2e15 * 1.05] is [2.1e15 >= 2^50], where the float
    spacing is 0.25, so [new_capacity + 0.1] rounds back to [new_capacity]
    (and likewise for [capacity]); the rate check [2.1e15 / 1.1 < 2e15]
    therefore fails at every iteration, and for every fuel the loop is
    still running. *)
Theorem battery2_find_and_init_capacity_diverges :
  let x := f_of_Z 2000000000000000 in
  f_add (f_mul x Battery2_f64.dflt_eff_d) (f_lit 1 10) = f_mul x Battery2_f64.dflt_eff_d /\
  (forall fuel,
     Battery2_f64.find_and_init_capacity fuel x
       (Battery2_f64.init (f_of_Z 0) (f_of_Z 0)) = Err OutOfFuel).
Proof.
  intros x. split; [vm_compute; reflexivity|].
  intros fuel. unfold Battery2_f64.find_and_init_capacity.
  apply fiic_loop_stuck; vm_compute; reflexivity.
Qed.

(** ** C7 and C10: the incremental capacity finder *)

(** One iteration, seen from [battery_cap] and [daily_net_load]: starting
    from a non-negative number [battery_cap], an iteration that goes on
    leaves a non-negative number; at a window boundary it breaks, with
    [battery_cap = nan], exactly when the accumulated net load is negative,
    and otherwise resets the accumulator; elsewhere it accumulates. *)
Lemma calc_body_shape (i : nat) (r d : Q) (s : cstate) (q : Q) :
  c_battery_cap s = PNum q -> 0 <= q ->
  let res := calc_body i r d s in
  if Nat.eqb (Nat.modulo (Nat.add i 1) 72) 0 then
    (snd res = true /\ c_battery_cap (fst res) = PNaN /\
       c_daily_net_load s + (r - d) < 0) \/
    (snd res = false /\ c_daily_net_load (fst res) = 0 /\
       0 <= c_daily_net_load s + (r - d) /\
       exists q', c_battery_cap (fst res) = PNum q' /\ 0 <= q')
  else
    snd res = false /\
    c_daily_net_load (fst res) = c_daily_net_load s + (r - d) /\
    exists q', c_battery_cap (fst res) = PNum q' /\ 0 <= q'.
Proof.
  intros Hq Hq0 res. subst res. unfold calc_body.
  set (b := calc_battery_update r d (c_b s)). cbv zeta. rewrite Hq.
  assert (Hcap : exists q', (if Qltb 0 (Battery.capacity b) && py_ne (PNum q) PNaN
                             then pymax (PNum q) (PNum (Battery.capacity b))
                             else PNum q) = PNum q' /\ 0 <= q').
  { destruct (Qltb_cases 0 (Battery.capacity b)) as [[-> Hc]|[-> Hc]];
      cbn [andb py_ne py_eq negb].
    - unfold pymax, py_gt.
      destruct (Qltb_cases q (Battery.capacity b)) as [[-> Hl]|[-> Hl]].
      + eexists; split; [reflexivity|lra].
      + eexists; split; [reflexivity|exact Hq0].
    - eexists; split; [reflexivity|exact Hq0]. }
  destruct Hcap as [q' [Hq' Hq'0]]. rewrite Hq'.
  destruct (Nat.eqb (Nat.modulo (Nat.add i 1) 72) 0).
  - destruct (Qltb_cases (c_daily_net_load s + (r - d)) 0) as [[-> Hn]|[-> Hn]].
    + left. cbn. auto.
    + right. cbn [fst snd c_daily_net_load c_battery_cap].
      split; [reflexivity|]. split; [reflexivity|]. split; [exact Hn|].
      exists q'. auto.
  - cbn [fst snd c_daily_net_load c_battery_cap].
    split; [reflexivity|]. split; [reflexivity|]. exists q'. auto.
Qed.

Lemma sumQ_app (l1 l2 : list Q) : sumQ (l1 ++ l2) == sumQ l1 + sumQ l2.
Proof.
  induction l1 as [|x l1 IH]; cbn [sumQ app]; [lra|]. rewrite IH. lra.
Qed.

Lemma length_net_loads (l : list (Q * Q)) : length (net_loads l) = length l.
Proof. apply length_map. Qed.

Lemma net_loads_app (l1 l2 : list (Q * Q)) :
  net_loads (l1 ++ l2) = net_loads l1 ++ net_loads l2.
Proof. apply map_app. Qed.

Ltac mod72 n :=
  pose proof (Nat.div_mod_eq n 72); pose proof (Nat.mod_upper_bound n 72 ltac:(lia));
  pose proof (Nat.div_mod_eq (Nat.add n 1) 72);
  pose proof (Nat.mod_upper_bound (Nat.add n 1) 72 ltac:(lia)).

(** The window ending at a boundary index [length pre] is the part of
    [pre] since the last boundary, followed by the current step. *)
Lemma window_at_boundary (pre rest : list (Q * Q)) (r d : Q) :
  Nat.modulo (Nat.add (length pre) 1) 72 = 0%nat ->
  spec_window_net_load (pre ++ (r, d) :: rest) (length pre)
    == sumQ (skipn (length pre - Nat.modulo (length pre) 72) (net_loads pre)) + (r - d).
Proof.
  intros Hm. mod72 (length pre).
  assert (E71 : (length pre - Nat.modulo (length pre) 72 = length pre - 71)%nat) by lia.
  rewrite E71. unfold spec_window_net_load.
  rewrite net_loads_app, skipn_app, length_net_loads.
  replace (length pre - 71 - length pre)%nat with 0%nat by lia.
  cbn [skipn net_loads map].
  rewrite firstn_app, length_skipn, length_net_loads.
  replace (72 - (length pre - (length pre - 71)))%nat with 1%nat by lia.
  rewrite firstn_all2 by (rewrite length_skipn, length_net_loads; lia).
  cbn [firstn]. rewrite sumQ_app. cbn [sumQ]. lra.
Qed.

(** The loop from index [length pre], with [daily_net_load] equal to the net
    load accumulated in [pre] since the last boundary and a non-negative
    [battery_cap]: it ends with a non-negative [battery_cap] or with [nan],
    and with [nan] exactly when some window ending in the remaining steps
    has a negative net load. *)
Lemma calc_loop_spec (rest : list (Q * Q)) :
  forall pre s q,
  c_daily_net_load s
    == sumQ (skipn (length pre - Nat.modulo (length pre) 72) (net_loads pre)) ->
  c_battery_cap s = PNum q -> 0 <= q ->
  ((exists q', c_battery_cap (calc_loop (length pre) rest s) = PNum q' /\ 0 <= q')
   \/ c_battery_cap (calc_loop (length pre) rest s) = PNaN) /\
  (c_battery_cap (calc_loop (length pre) rest s) = PNaN <->
   exists j, (length pre <= j < length pre + length rest)%nat /\
     Nat.modulo (Nat.add j 1) 72 = 0%nat /\
     spec_window_net_load (pre ++ rest) j < 0).
Proof.
  induction rest as [|[r d] rest IH]; intros pre s q Hdnl Hq Hq0.
  - cbn [calc_loop]. rewrite Hq. split; [left; exists q; auto|].
    split; [discriminate|]. intros [j [Hj _]]. cbn [length] in Hj. lia.
  - cbn [calc_loop].
    pose proof (calc_body_shape (length pre) r d s q Hq Hq0) as Hb.
    destruct (calc_body (length pre) r d s) as [s' brk].
    cbn [fst snd] in Hb.
    assert (Hlen : length (pre ++ [(r, d)]) = S (length pre))
      by (rewrite length_app; cbn; lia).
    assert (Happ : (pre ++ [(r, d)]) ++ rest = pre ++ (r, d) :: rest)
      by (rewrite <- app_assoc; reflexivity).
    destruct (Nat.eqb (Nat.modulo (Nat.add (length pre) 1) 72) 0) eqn:Emod.
    + apply Nat.eqb_eq in Emod.
      pose proof (window_at_boundary pre rest r d Emod) as Hw.
      destruct Hb as [[-> [Hnan Hneg]]|[-> [Hz [Hnn [q' [Hq' Hq'0]]]]]].
      * split; [right; exact Hnan|]. split; [intros _|intros _; exact Hnan].
        exists (length pre). cbn [length]. split; [lia|]. split; [exact Emod|].
        lra.
      * rewrite <- Hlen.
        destruct (IH (pre ++ [(r, d)]) s' q') as [IH1 IH2];
          [| exact Hq' | exact Hq'0 |].
        { rewrite Hz, Hlen. mod72 (length pre).
          replace (S (length pre) - Nat.modulo (S (length pre)) 72)%nat
            with (S (length pre)) by (rewrite <- (Nat.add_1_r (length pre)); lia).
          rewrite skipn_all2 by (rewrite length_net_loads, Hlen; lia).
          reflexivity. }
        split; [exact IH1|]. rewrite IH2, Happ, Hlen. cbn [length].
        split; intros [j [Hj [Hjm Hjw]]].
        -- exists j. split; [lia|]. auto.
        -- exists j. split; [|auto].
           destruct (Nat.eq_dec j (length pre)) as [->|Hne]; [lra|lia].
    + apply Nat.eqb_neq in Emod.
      destruct Hb as [-> [Hd [q' [Hq' Hq'0]]]].
      rewrite <- Hlen.
      destruct (IH (pre ++ [(r, d)]) s' q') as [IH1 IH2];
        [| exact Hq' | exact Hq'0 |].
      { rewrite Hd, Hlen, Hdnl. mod72 (length pre).
        replace (S (length pre) - Nat.modulo (S (length pre)) 72)%nat
          with (length pre - Nat.modulo (length pre) 72)%nat
          by (rewrite <- (Nat.add_1_r (length pre)); lia).
        rewrite net_loads_app, skipn_app, length_net_loads.
        replace (length pre - Nat.modulo (length pre) 72 - length pre)%nat
          with 0%nat by lia.
        cbn [skipn net_loads map]. rewrite sumQ_app. cbn [sumQ]. lra. }
      split; [exact IH1|]. rewrite IH2, Happ, Hlen. cbn [length].
      split; intros [j [Hj [Hjm Hjw]]].
      * exists j. split; [lia|]. auto.
      * exists j. split; [|auto].
        destruct (Nat.eq_dec j (length pre)) as [->|Hne]; [contradiction|lia].
Qed.

Lemma calc_result_spec (series : list (Q * Q)) :
  ((exists q, calculate_247_battery_capacity series = PNum q /\ 0 <= q)
   \/ calculate_247_battery_capacity series = PNaN) /\
  (calculate_247_battery_capacity series = PNaN <->
   exists j, (j < length series)%nat /\ Nat.modulo (Nat.add j 1) 72 = 0%nat /\
     spec_window_net_load series j < 0).
Proof.
  destruct (calc_loop_spec series [] calc_init 0) as [H1 H2];
    [reflexivity | reflexivity | apply Qle_refl |].
  unfold calculate_247_battery_capacity. split; [exact H1|].
  rewrite H2. cbn [length app]. split; intros [j [Hj Hw]]; exists j; split; auto; lia.
Qed.

Lemma window_app (series rest : list (Q * Q)) (j : nat) :
  (71 <= j < length series)%nat ->
  spec_window_net_load (series ++ rest) j == spec_window_net_load series j.
Proof.
  intros Hj. unfold spec_window_net_load.
  rewrite net_loads_app, skipn_app, firstn_app, length_skipn, length_net_loads.
  destruct (Nat.le_gt_cases 72 (length series - (j - 71))) as [Hle|Hgt].
  - replace (72 - (length series - (j - 71)))%nat with 0%nat by lia.
    cbn [firstn]. rewrite app_nil_r. reflexivity.
  - lia.
Qed.

(** Claim C7: at an index [i] with [(i + 1) % 72 == 0] an iteration breaks
    exactly when the accumulated net load is negative, then setting
    [battery_cap] to [nan], and otherwise resets the accumulator to 0.  Over
    a whole series, the result is [nan] exactly when some 72-step window
    [i - 71 .. i] ending at such an index has a negative net load, and a
    [nan] result is not changed by any further steps. *)
Theorem calculate_247_battery_capacity_window_check (series : list (Q * Q)) :
  (forall i r d s, Nat.modulo (Nat.add i 1) 72 = 0%nat ->
     (snd (calc_body i r d s) = true <-> c_daily_net_load s + (r - d) < 0) /\
     (snd (calc_body i r d s) = true ->
        c_battery_cap (fst (calc_body i r d s)) = PNaN) /\
     (snd (calc_body i r d s) = false ->
        c_daily_net_load (fst (calc_body i r d s)) = 0)) /\
  (calculate_247_battery_capacity series = PNaN <->
   exists i, (i < length series)%nat /\ Nat.modulo (Nat.add i 1) 72 = 0%nat /\
     spec_window_net_load series i < 0) /\
  (forall rest, calculate_247_battery_capacity series = PNaN ->
     calculate_247_battery_capacity (series ++ rest) = PNaN).
Proof.
  split; [|split].
  - intros i r d s Hm. unfold calc_body. cbv zeta.
    apply Nat.eqb_eq in Hm. rewrite Hm.
    destruct (Qltb_cases (c_daily_net_load s + (r - d)) 0) as [[-> Hn]|[-> Hn]];
      cbn [fst snd c_battery_cap c_daily_net_load].
    + split; [split; auto|]. split; auto. discriminate.
    + split; [split; [discriminate|intros; lra]|]. split; [discriminate|auto].
  - apply calc_result_spec.
  - intros rest Hnan.
    apply (proj2 (calc_result_spec series)) in Hnan.
    destruct Hnan as [j [Hj [Hm Hw]]].
    apply (proj2 (calc_result_spec (series ++ rest))).
    exists j. rewrite length_app. split; [lia|]. split; [exact Hm|].
    rewrite window_app; [exact Hw|]. mod72 j. lia.
Qed.

(** Running the loop over [pre ++ rest] either reaches the iteration at
    index [i + length pre] with a non-negative number in [battery_cap], or
    has already stopped inside [pre] with [battery_cap = nan]. *)
Lemma calc_loop_prefix (pre rest : list (Q * Q)) :
  forall i s q, c_battery_cap s = PNum q -> 0 <= q ->
  (exists s' q', c_battery_cap s' = PNum q' /\ 0 <= q' /\
     calc_loop i (pre ++ rest) s = calc_loop (i + length pre) rest s') \/
  (calc_loop i (pre ++ rest) s = calc_loop i pre s /\
   c_battery_cap (calc_loop i pre s) = PNaN).
Proof.
  induction pre as [|[r d] pre IH]; intros i s q Hq Hq0.
  - left. exists s, q. rewrite Nat.add_0_r. auto.
  - cbn [app calc_loop length].
    pose proof (calc_body_shape i r d s q Hq Hq0) as Hb.
    destruct (calc_body i r d s) as [s' brk]. cbn [fst snd] in Hb.
    destruct (Nat.eqb (Nat.modulo (Nat.add i 1) 72) 0).
    + destruct Hb as [[-> [Hnan _]]|[-> [_ [_ [q' [Hq' Hq'0]]]]]].
      * right. auto.
      * destruct (IH (S i) s' q' Hq' Hq'0) as [[s'' [q'' [H1 [H2 H3]]]]|H].
        -- left. exists s'', q''. rewrite H3, Nat.add_succ_comm. auto.
        -- right. exact H.
    + destruct Hb as [-> [_ [q' [Hq' Hq'0]]]].
      destruct (IH (S i) s' q' Hq' Hq'0) as [[s'' [q'' [H1 [H2 H3]]]]|H].
      * left. exists s'', q''. rewrite H3, Nat.add_succ_comm. auto.
      * right. exact H.
Qed.

(** Claim C10: [battery_cap] starts as the number 0; whenever the loop of
    [calculate_247_battery_capacity] reaches an iteration, [battery_cap] is a
    non-negative number (so [max(battery_cap, b.capacity)] never sees a
    [nan] operand), unless the loop has already stopped with [nan]; an
    iteration that goes on keeps a non-negative number and one that breaks
    sets [nan]; the result is [nan] or a non-negative number. *)
Theorem calculate_247_battery_capacity_cap_not_nan_in_loop (series : list (Q * Q)) :
  c_battery_cap calc_init = PNum 0 /\
  (forall pre rest, series = pre ++ rest ->
     (exists s q, c_battery_cap s = PNum q /\ 0 <= q /\
        calc_loop 0 series calc_init = calc_loop (length pre) rest s) \/
     (calc_loop 0 series calc_init = calc_loop 0 pre calc_init /\
      c_battery_cap (calc_loop 0 pre calc_init) = PNaN)) /\
  (forall i r d s q, c_battery_cap s = PNum q -> 0 <= q ->
     (snd (calc_body i r d s) = false ->
        exists q', c_battery_cap (fst (calc_body i r d s)) = PNum q' /\ 0 <= q') /\
     (snd (calc_body i r d s) = true ->
        c_battery_cap (fst (calc_body i r d s)) = PNaN)) /\
  ((exists q, calculate_247_battery_capacity series = PNum q /\ 0 <= q)
   \/ calculate_247_battery_capacity series = PNaN).
Proof.
  split; [reflexivity|]. split; [|split].
  - intros pre rest ->.
    exact (calc_loop_prefix pre rest 0 calc_init 0 eq_refl (Qle_refl 0)).
  - intros i r d s q Hq Hq0.
    pose proof (calc_body_shape i r d s q Hq Hq0) as Hb. cbv zeta in Hb.
    destruct (Nat.eqb (Nat.modulo (Nat.add i 1) 72) 0).
    + destruct Hb as [[Hs [Hnan _]]|[Hs [_ [_ Hq']]]];
        split; intros Hb; (congruence || auto).
    + destruct Hb as [Hs [_ Hq']]. split; intros Hb; (congruence || auto).
  - apply calc_result_spec.
Qed.

(** * Further properties of the code *)

(** ** The lossless battery *)

(** The two branches of [Battery.discharge]. *)
Lemma battery_discharge_cases (b : Battery.t) (x : Q) :
  (x <= Battery.current_load b ->
     fst (Battery.discharge x b) = x /\
     Battery.current_load (snd (Battery.discharge x b)) == Battery.current_load b - x) /\
  (Battery.current_load b < x ->
     fst (Battery.discharge x b) == Battery.current_load b /\
     Battery.current_load (snd (Battery.discharge x b)) = 0) /\
  Battery.capacity (snd (Battery.discharge x b)) = Battery.capacity b.
Proof.
  unfold Battery.discharge.
  destruct (Qltb_cases (Battery.current_load b - x) 0) as [[-> H]|[-> H]];
    cbn [fst snd Battery.current_load Battery.capacity];
    (split; [intros Hx; split; [try reflexivity; lra|try reflexivity; lra]|]);
    (split; [intros Hx; split; [try reflexivity; lra|try reflexivity; lra]|reflexivity]).
Qed.

(** The two branches of [Battery.charge]. *)
Lemma battery_charge_cases (b : Battery.t) (x : Q) :
  fst (Battery.charge x b) = Battery.current_load (snd (Battery.charge x b)) /\
  Battery.capacity (snd (Battery.charge x b)) = Battery.capacity b /\
  (Battery.current_load b + x <= Battery.capacity b ->
     Battery.current_load (snd (Battery.charge x b)) = Battery.current_load b + x) /\
  (Battery.capacity b < Battery.current_load b + x ->
     Battery.is_full (snd (Battery.charge x b)) = true).
Proof.
  unfold Battery.charge.
  destruct (Qltb_cases (Battery.capacity b) (Battery.current_load b + x))
    as [[-> H]|[-> H]]; cbn [fst snd Battery.current_load Battery.capacity];
    (split; [reflexivity|]); (split; [reflexivity|]); split; intros Hx;
    try lra; try reflexivity.
  unfold Battery.is_full. cbn. apply Qeq_bool_iff. reflexivity.
Qed.

(** Charging a lossless battery (with [current_load >= 0]) with an amount
    that fits, then discharging the same amount, delivers all of it and
    restores [current_load]. *)
Theorem battery_charge_then_discharge (b : Battery.t) (x : Q) :
  0 <= Battery.current_load b -> 0 <= x ->
  Battery.current_load b + x <= Battery.capacity b ->
  fst (Battery.discharge x (snd (Battery.charge x b))) = x /\
  Battery.current_load (snd (Battery.discharge x (snd (Battery.charge x b))))
    == Battery.current_load b.
Proof.
  intros H0 Hx Hfit.
  destruct (battery_charge_cases b x) as [_ [_ [Hc _]]].
  specialize (Hc Hfit).
  destruct (battery_discharge_cases (snd (Battery.charge x b)) x) as [Hd _].
  rewrite Hc in Hd. destruct Hd as [Hr Hl]; [lra|].
  split; [exact Hr|]. rewrite Hl. lra.
Qed.

Lemma battery_charge_then_discharge_witness :
  (0 <= 1 /\ 0 <= 2 /\ 1 + 2 <= 5) /\
  fst (Battery.discharge 2 (snd (Battery.charge 2 (Battery.mk 5 1)))) = 2 /\
  Battery.current_load (snd (Battery.discharge 2 (snd (Battery.charge 2 (Battery.mk 5 1)))))
    == 1.
Proof.
  split; [split; [|split]; lra|].
  exact (battery_charge_then_discharge (Battery.mk 5 1) 2
           ltac:(cbn [Battery.current_load]; lra) ltac:(lra)
           ltac:(cbn [Battery.current_load Battery.capacity]; lra)).
Defined.

(** ** The default Battery2 *)

(** With the default coefficients and [0 <= current_load <= capacity], both
    rate limits are non-negative, charging at [calc_max_charge] cannot
    overfill the battery and discharging at [calc_max_discharge] cannot
    overdraw it. *)
Theorem battery2_default_rate_limits (cap cl : Q) :
  0 <= cl <= cap ->
  exists mc md,
    Battery2.calc_max_charge (Battery2.init cap cl) = Ok mc /\
    Battery2.calc_max_discharge (Battery2.init cap cl) = Ok md /\
    0 <= mc /\ cl + mc * Battery2.dflt_eff_c <= cap /\
    0 <= md /\ md * Battery2.dflt_eff_d <= cl.
Proof.
  intros [H0 H1].
  unfold Battery2.calc_max_charge, Battery2.calc_max_discharge.
  rewrite !pydiv_ok by reflexivity. cbn [rbind].
  eexists _, _. split; [reflexivity|]. split; [reflexivity|].
  cbn [Battery2.current_load Battery2.capacity Battery2.init Battery2.eff_c
       Battery2.eff_d Battery2.upper_lim_u Battery2.upper_lim_v
       Battery2.lower_lim_u Battery2.lower_lim_v].
  unfold Battery2.dflt_eff_c, Battery2.dflt_upper_u, Battery2.dflt_upper_v,
    Battery2.dflt_eff_d, Battery2.dflt_lower_u, Battery2.dflt_lower_v.
  qdiv_atoms. pymin_atoms. split_lra.
Qed.

Lemma battery2_default_rate_limits_witness :
  0 <= 3 <= 10 /\
  exists mc md,
    Battery2.calc_max_charge (Battery2.init 10 3) = Ok mc /\
    Battery2.calc_max_discharge (Battery2.init 10 3) = Ok md /\
    0 <= mc /\ 3 + mc * Battery2.dflt_eff_c <= 10 /\
    0 <= md /\ md * Battery2.dflt_eff_d <= 3.
Proof.
  assert (H : 0 <= 3 <= 10) by (split; lra).
  split; [exact H|]. exact (battery2_default_rate_limits 10 3 H).
Defined.

Lemma battery2_default_charge_step (cap cl x : Q) :
  0 <= cl <= cap -> 0 <= x ->
  exists v, Battery2.charge x (Battery2.init cap cl) = Ok (v, Battery2.init cap v) /\
            0 <= v <= cap.
Proof.
  intros [H0 H1] Hx. unfold Battery2.charge, Battery2.calc_max_charge.
  rewrite !pydiv_ok by reflexivity. cbn [rbind].
  rewrite set_current_load_init. eexists. split; [reflexivity|].
  cbn [Battery2.current_load Battery2.capacity Battery2.init Battery2.eff_c
       Battery2.upper_lim_u Battery2.upper_lim_v].
  unfold Battery2.dflt_eff_c, Battery2.dflt_upper_u, Battery2.dflt_upper_v.
  qdiv_atoms. pymin_atoms. split_lra.
Qed.

(** With the default coefficients, [discharge(x)] for [x >= 0] returns an
    amount between 0 and [x], and keeps [0 <= current_load <= capacity]. *)
Lemma battery2_default_discharge_step (cap cl x : Q) :
  0 <= cl <= cap -> 0 <= x ->
  exists r v, Battery2.discharge x (Battery2.init cap cl) = Ok (r, Battery2.init cap v) /\
              0 <= r <= x /\ 0 <= v <= cap.
Proof.
  intros [H0 H1] Hx. unfold Battery2.discharge, Battery2.calc_max_discharge.
  rewrite !pydiv_ok by reflexivity. cbn [rbind].
  rewrite set_current_load_init.
  cbn [Battery2.current_load Battery2.capacity Battery2.init Battery2.eff_d
       Battery2.lower_lim_u Battery2.lower_lim_v].
  unfold Battery2.dflt_eff_d, Battery2.dflt_lower_u, Battery2.dflt_lower_v.
  qdiv_atoms.
  match goal with
  | |- context [Qltb ?a x] =>
      destruct (Qltb_cases a x) as [[-> Hl]|[-> Hl]]
  end;
  (eexists _, _; split; [reflexivity|]); pymin_atoms; split; split_lra.
Qed.

Lemma apply_loop_bounds (series : list (Q * Q)) :
  forall cap cl tot, 0 <= cl <= cap ->
  exists t, apply_loop series (Battery2.init cap cl) tot = Ok t /\
            tot <= t <= tot + spec_positive_deficit_total series.
Proof.
  induction series as [|[r d] rest IH]; intros cap cl tot Hcl.
  - exists tot. cbn. split; [reflexivity|lra].
  - cbn [apply_loop spec_positive_deficit_total].
    destruct (Qltb_cases 0 (d - r)) as [[E Hg]|[E Hg]]; rewrite E.
    + destruct (battery2_default_discharge_step cap cl (d - r) Hcl ltac:(lra))
        as [x [v [-> [Hx Hv]]]].
      cbn [rbind fst snd].
      destruct (IH cap v (tot + (d - r) - x) Hv) as [t [Ht Et]].
      exists t. split; [exact Ht|lra].
    + destruct (battery2_default_charge_step cap cl (- (d - r)) Hcl ltac:(lra))
        as [v [-> Hv]].
      cbn [rbind fst snd].
      destruct (IH cap v tot Hv) as [t [Ht Et]].
      exists t. split; [exact Ht|lra].
Qed.

(** For any non-negative capacity, [apply_battery] succeeds and the
    uncovered energy it returns lies between 0 and the total of the positive
    deficits: the battery never makes the shortfall negative nor larger than
    with no battery. *)
Theorem apply_battery_bounds (battery_capacity : Q) (series : list (Q * Q)) :
  0 <= battery_capacity ->
  exists t, apply_battery battery_capacity series = Ok t /\
            0 <= t <= spec_positive_deficit_total series.
Proof.
  intros Hc.
  destruct (apply_loop_bounds series battery_capacity battery_capacity 0
              ltac:(split; lra)) as [t [Ht Et]].
  exists t. split; [exact Ht|lra].
Qed.

Lemma apply_battery_bounds_witness :
  0 <= 2 /\
  exists t, apply_battery 2 [(10, 5); (0, 5); (1, 5)] = Ok t /\
            0 <= t <= spec_positive_deficit_total [(10, 5); (0, 5); (1, 5)].
Proof.
  assert (H : 0 <= 2) by lra. split; [exact H|].
  exact (apply_battery_bounds 2 [(10, 5); (0, 5); (1, 5)] H).
Defined.

(** ** [sim_battery_247] with the lossless battery *)

Lemma lossless_sim_sufficient (series : list (Q * Q)) :
  forall cap cl,
  spec_max_prefix_deficit series <= cl ->
  spec_max_cumulative_deficit series <= cap ->
  sim_battery_247 series (Battery.mk cap cl) = Ok true.
Proof.
  induction series as [|[r d] rest IH]; intros cap cl Hcl Hcap;
    [reflexivity|].
  cbn [spec_max_prefix_deficit spec_max_cumulative_deficit] in Hcl, Hcap.
  apply Q.max_lub_iff in Hcl as [_ Hcl].
  apply Q.max_lub_iff in Hcap as [_ Hcap].
  pose proof (spec_max_prefix_deficit_nonneg rest) as H0.
  pose proof (spec_prefix_le_cumulative rest) as Hpc.
  cbn [sim_battery_247 b_charge b_discharge Battery_ops rbind].
  destruct (Qltb_cases 0 (r - d)) as [[-> Hs]|[-> Hs]].
  - unfold Battery.charge. cbn [Battery.current_load Battery.capacity snd].
    destruct (Qltb_cases cap (cl + (r - d))) as [[-> Hc]|[-> Hc]];
      apply IH; lra.
  - unfold Battery.discharge. cbn [Battery.current_load Battery.capacity].
    destruct (Qltb_cases (cl - - (r - d)) 0) as [[-> Hc]|[-> Hc]];
      [exfalso; lra|].
    cbn [fst snd].
    destruct (Qltb_cases (- (r - d)) (- (r - d))) as [[-> Hc']|[-> Hc']];
      [exfalso; lra|].
    apply IH; lra.
Qed.

Ltac use_ih IH H H1 H2 :=
  match type of H with
  | sim_battery_247 _ (Battery.mk ?c ?l) = _ =>
      destruct (IH c l ltac:(split; lra) H) as [H1 H2]
  end.

Lemma lossless_sim_necessary (series : list (Q * Q)) :
  forall cap cl, 0 <= cl <= cap ->
  sim_battery_247 series (Battery.mk cap cl) = Ok true ->
  spec_max_prefix_deficit series <= cl /\
  spec_max_cumulative_deficit series <= cap.
Proof.
  induction series as [|[r d] rest IH]; intros cap cl Hcl Hsim.
  - cbn. lra.
  - cbn [sim_battery_247 b_charge b_discharge Battery_ops rbind] in Hsim.
    cbn [spec_max_prefix_deficit spec_max_cumulative_deficit].
    assert (Hp : Qmax 0 ((d - r) + spec_max_prefix_deficit rest) <= cl).
    { destruct (Qltb_cases 0 (r - d)) as [[E Hs]|[E Hs]]; rewrite E in Hsim.
      - unfold Battery.charge in Hsim.
        cbn [Battery.current_load Battery.capacity snd] in Hsim.
        destruct (Qltb_cases cap (cl + (r - d))) as [[E' Hc]|[E' Hc]];
          rewrite E' in Hsim;
          (use_ih IH Hsim Hm Hm');
          apply Q.max_lub; lra.
      - unfold Battery.discharge in Hsim.
        cbn [Battery.current_load Battery.capacity] in Hsim.
        destruct (Qltb_cases (cl - - (r - d)) 0) as [[E' Hc]|[E' Hc]];
          rewrite E' in Hsim; cbn [fst snd] in Hsim.
        + destruct (Qltb_cases (- (r - d) + (cl - - (r - d))) (- (r - d)))
            as [[E'' _]|[_ Hc']]; [rewrite E'' in Hsim; discriminate|lra].
        + destruct (Qltb_cases (- (r - d)) (- (r - d))) as [[_ Hc']|[E'' _]];
            [lra|rewrite E'' in Hsim].
          use_ih IH Hsim Hm Hm'.
          apply Q.max_lub; lra. }
    split; [exact Hp|].
    apply Q.max_lub; [lra|].
    destruct (Qltb_cases 0 (r - d)) as [[E Hs]|[E Hs]]; rewrite E in Hsim.
    + unfold Battery.charge in Hsim.
      cbn [Battery.current_load Battery.capacity snd] in Hsim.
      destruct (Qltb_cases cap (cl + (r - d))) as [[E' Hc]|[E' Hc]];
        rewrite E' in Hsim;
        (use_ih IH Hsim Hm' Hm); exact Hm.
    + unfold Battery.discharge in Hsim.
      cbn [Battery.current_load Battery.capacity] in Hsim.
      destruct (Qltb_cases (cl - - (r - d)) 0) as [[E' Hc]|[E' Hc]];
        rewrite E' in Hsim; cbn [fst snd] in Hsim.
      * destruct (Qltb_cases (- (r - d) + (cl - - (r - d))) (- (r - d)))
          as [[E'' _]|[_ Hc']]; [rewrite E'' in Hsim; discriminate|lra].
      * destruct (Qltb_cases (- (r - d)) (- (r - d))) as [[_ Hc']|[E'' _]];
          [lra|rewrite E'' in Hsim].
        use_ih IH Hsim Hm' Hm. exact Hm.
Qed.

(** For a lossless [Battery] with [0 <= current_load <= capacity],
    [sim_battery_247] succeeds exactly when the load covers the largest
    cumulative deficit of a prefix of the series and the capacity covers the
    largest cumulative deficit of a contiguous window. *)
Theorem lossless_sim_characterisation (series : list (Q * Q)) (cap cl : Q) :
  0 <= cl <= cap ->
  (sim_battery_247 series (Battery.mk cap cl) = Ok true <->
   spec_max_prefix_deficit series <= cl /\
   spec_max_cumulative_deficit series <= cap).
Proof.
  intros Hcl. split.
  - apply lossless_sim_necessary, Hcl.
  - intros [H1 H2]. apply lossless_sim_sufficient; assumption.
Qed.

Lemma lossless_sim_characterisation_witness :
  0 <= 1 <= 1 /\
  (sim_battery_247 [(0, 1); (2, 0); (0, 1)] (Battery.mk 1 1) = Ok true <->
   spec_max_prefix_deficit [(0, 1); (2, 0); (0, 1)] <= 1 /\
   spec_max_cumulative_deficit [(0, 1); (2, 0); (0, 1)] <= 1).
Proof.
  assert (H : 0 <= 1 <= 1) by (split; lra). split; [exact H|].
  exact (lossless_sim_characterisation [(0, 1); (2, 0); (0, 1)] 1 1 H).
Defined.

(** Feasibility is monotone: a lossless battery that passes
    [sim_battery_247] keeps passing with a larger capacity and a larger
    initial load (this is what the binary search of the sizers relies on). *)
Theorem lossless_sim_monotone (series : list (Q * Q)) (cap cl cap' cl' : Q) :
  0 <= cl <= cap -> cl <= cl' -> cap <= cap' ->
  sim_battery_247 series (Battery.mk cap cl) = Ok true ->
  sim_battery_247 series (Battery.mk cap' cl') = Ok true.
Proof.
  intros Hcl Hl Hc Hsim.
  destruct (lossless_sim_necessary series cap cl Hcl Hsim) as [H1 H2].
  apply lossless_sim_sufficient; lra.
Qed.

Lemma lossless_sim_monotone_witness :
  (0 <= 1 <= 1 /\ 1 <= 2 /\ 1 <= 3 /\
   sim_battery_247 [(0, 1); (2, 0); (0, 1)] (Battery.mk 1 1) = Ok true) /\
  sim_battery_247 [(0, 1); (2, 0); (0, 1)] (Battery.mk 3 2) = Ok true.
Proof.
  assert (H1 : 0 <= 1 <= 1) by (split; lra).
  assert (H2 : 1 <= 2) by lra. assert (H3 : 1 <= 3) by lra.
  assert (H4 : sim_battery_247 [(0, 1); (2, 0); (0, 1)] (Battery.mk 1 1) = Ok true)
    by reflexivity.
  split; [exact (conj H1 (conj H2 (conj H3 H4)))|].
  exact (lossless_sim_monotone [(0, 1); (2, 0); (0, 1)] 1 1 3 2 H1 H2 H3 H4).
Defined.

(** ** The no-battery special case of the sizers *)

Lemma sim_zero_lossless_aux (series : list (Q * Q)) :
  forall cl, cl == 0 ->
  (sim_battery_247 series (Battery.mk 0 cl) = Ok true <->
   Forall (fun p => snd p <= fst p) series).
Proof.
  induction series as [|[r d] rest IH]; intros cl Hcl.
  - cbn. split; [constructor|reflexivity].
  - rewrite Forall_cons_iff. cbn [fst snd].
    cbn [sim_battery_247 b_charge b_discharge Battery_ops rbind].
    destruct (Qltb_cases 0 (r - d)) as [[-> Hs]|[-> Hs]].
    + unfold Battery.charge. cbn [Battery.current_load Battery.capacity snd].
      destruct (Qltb_cases 0 (cl + (r - d))) as [[-> Hc]|[-> Hc]];
        [|exfalso; lra].
      rewrite (IH 0 (Qeq_refl _)). split; [intros H; split; [lra|exact H]|].
      intros [_ H]. exact H.
    + unfold Battery.discharge. cbn [Battery.current_load Battery.capacity].
      destruct (Qltb_cases (cl - - (r - d)) 0) as [[-> Hc]|[-> Hc]];
        cbn [fst snd].
      * destruct (Qltb_cases (- (r - d) + (cl - - (r - d))) (- (r - d)))
          as [[-> _]|[_ Hc']]; [|exfalso; lra].
        split; [discriminate|intros [H _]; exfalso; lra].
      * destruct (Qltb_cases (- (r - d)) (- (r - d))) as [[_ Hc']|[-> _]];
          [exfalso; lra|].
        rewrite (IH (cl - - (r - d)) ltac:(lra)).
        split; [intros H; split; [lra|exact H]|intros [_ H]; exact H].
Qed.

(** The no-battery check of [calculate_247_battery_capacity_b1_sim]:
    [sim_battery_247] on [Battery(0,0)] succeeds exactly when no step of the
    series draws more power than the renewable supply. *)
Theorem sim_zero_lossless_battery (series : list (Q * Q)) :
  sim_battery_247 series (Battery.mk 0 0) = Ok true <->
  Forall (fun p => snd p <= fst p) series.
Proof. apply sim_zero_lossless_aux. reflexivity. Qed.

Lemma sim_zero_battery2_aux (series : list (Q * Q)) :
  forall cl, cl == 0 ->
  (sim_battery_247 series (Battery2.init 0 cl) = Ok true <->
   Forall (fun p => snd p <= fst p) series).
Proof.
  induction series as [|[r d] rest IH]; intros cl Hcl.
  - cbn. split; [constructor|reflexivity].
  - rewrite Forall_cons_iff. cbn [fst snd].
    cbn [sim_battery_247 b_charge b_discharge Battery2_ops].
    destruct (Qltb_cases 0 (r - d)) as [[-> Hs]|[-> Hs]].
    + unfold Battery2.charge, Battery2.calc_max_charge.
      rewrite !pydiv_ok by reflexivity. cbn [rbind fst snd].
      rewrite set_current_load_init.
      match goal with
      | |- (sim_battery_247 rest (Battery2.init 0 ?v) = _ <-> _) =>
          rewrite (IH v)
      end.
      * split; [intros H; split; [lra|exact H]|intros [_ H]; exact H].
      * cbn [Battery2.current_load Battery2.capacity Battery2.init
          Battery2.eff_c Battery2.upper_lim_u Battery2.upper_lim_v].
        unfold Battery2.dflt_eff_c, Battery2.dflt_upper_u, Battery2.dflt_upper_v.
        qdiv_atoms. pymin_atoms. split_lra.
    + unfold Battery2.discharge, Battery2.calc_max_discharge.
      rewrite !pydiv_ok by reflexivity. cbn [rbind].
      rewrite set_current_load_init.
      set (md := pymin _ _).
      assert (Hmd : md == 0).
      { subst md. cbn [Battery2.current_load Battery2.capacity Battery2.init
          Battery2.eff_d Battery2.lower_lim_u Battery2.lower_lim_v].
        unfold Battery2.dflt_eff_d, Battery2.dflt_lower_u, Battery2.dflt_lower_v.
        qdiv_atoms. pymin_atoms. split_lra. }
      rewrite (Qltb_compat md 0 (- (r - d)) (- (r - d)) Hmd (Qeq_refl _)).
      destruct (Qltb_cases 0 (- (r - d))) as [[-> Hg]|[-> Hg]].
      * cbn [rbind fst snd].
        rewrite (Qltb_compat md 0 (- (r - d)) (- (r - d)) Hmd (Qeq_refl _)).
        destruct (Qltb_cases 0 (- (r - d))) as [[-> _]|[_ Hg']];
          [|exfalso; lra].
        split; [discriminate|intros [H _]; exfalso; lra].
      * cbn [rbind fst snd].
        destruct (Qltb_cases (- (r - d)) (- (r - d))) as [[_ Hc']|[-> _]];
          [exfalso; lra|].
        match goal with
        | |- (sim_battery_247 rest (Battery2.init 0 ?v) = _ <-> _) =>
            rewrite (IH v)
        end.
        -- split; [intros H; split; [lra|exact H]|intros [_ H]; exact H].
        -- cbn [Battery2.current_load Battery2.init Battery2.eff_d].
           unfold Battery2.dflt_eff_d. clearbody md. pymin_atoms. split_lra.
Qed.

(** The no-battery check of [calculate_247_battery_capacity_b2_sim]:
    [sim_battery_247] on [Battery2(0,0)] succeeds exactly when no step of
    the series draws more power than the renewable supply. *)
Theorem sim_zero_battery2 (series : list (Q * Q)) :
  sim_battery_247 series (Battery2.init 0 0) = Ok true <->
  Forall (fun p => snd p <= fst p) series.
Proof. apply sim_zero_battery2_aux. reflexivity. Qed.

(** ** Accuracy of the lossless binary-search sizer *)




Lemma spec_max_cumulative_deficit_nonneg (series : list (Q * Q)) :
  0 <= spec_max_cumulative_deficit series.
Proof.
  pose proof (spec_max_prefix_deficit_nonneg series).
  pose proof (spec_prefix_le_cumulative series). lra.
Qed.


(** ** [calculate_247_battery_capacity]: the battery it grows *)

Lemma Qeq_bool_cases (a b : Q) :
  (Qeq_bool a b = true /\ a == b) \/ (Qeq_bool a b = false /\ ~ a == b).
Proof.
  destruct (Qeq_bool a b) eqn:E; [left|right]; split; auto.
  - apply Qeq_bool_iff, E.
  - apply Qeq_bool_false, E.
Qed.

Lemma calc_battery_update_bounds (ren_mw df_dc : Q) (b : Battery.t) :
  0 <= Battery.current_load b <= Battery.capacity b ->
  let b' := calc_battery_update ren_mw df_dc b in
  0 <= Battery.current_load b' <= Battery.capacity b' /\
  (ren_mw < df_dc -> df_dc - ren_mw <= Battery.capacity b').
Proof.
  destruct b as [cap cl]. cbn [Battery.current_load Battery.capacity].
  intros [H0 H1]. unfold calc_battery_update.
  cbn [Battery.current_load Battery.capacity].
  destruct (Qltb_cases ren_mw df_dc) as [[-> Hd]|[-> Hd]].
  - destruct (Qeq_bool_cases cap 0) as [[-> Hc]|[-> Hc]].
    + cbn. split; [lra|intros _; lra].
    + destruct (Qeq_bool_cases cl 0) as [[-> Hl]|[-> Hl]].
      * cbn. split; [lra|intros _; lra].
      * unfold Battery.discharge. cbn [Battery.current_load Battery.capacity].
        destruct (Qltb_cases (cl - (df_dc - ren_mw)) 0) as [[-> Hx]|[-> Hx]];
          cbn [snd Battery.current_load Battery.capacity].
        -- destruct (Qeq_bool_cases 0 0) as [[-> _]|[_ Hf]];
             [|exfalso; apply Hf; reflexivity].
           cbn. split; [lra|intros _; lra].
        -- destruct (Qeq_bool_cases (cl - (df_dc - ren_mw)) 0)
             as [[-> Hz]|[-> Hz]]; cbn; split; try lra; intros _; lra.
  - destruct (Qltb_cases 0 cap) as [[-> Hc]|[-> Hc]].
    + unfold Battery.charge. cbn [Battery.current_load Battery.capacity].
      destruct (Qltb_cases cap (cl + (ren_mw - df_dc))) as [[-> Hx]|[-> Hx]];
        cbn; split; try lra; intros Hf; lra.
    + unfold Battery.is_full. cbn [Battery.current_load Battery.capacity].
      destruct (Qeq_bool cap cl); cbn; split; try lra; intros Hf; lra.
Qed.

(** One update of the battery in [calculate_247_battery_capacity] keeps
    [0 <= current_load <= capacity], and after a deficit step the capacity
    covers that step's deficit [df_dc - ren_mw]. *)
Theorem calc_battery_update_inv (ren_mw df_dc : Q) (b : Battery.t) :
  0 <= Battery.current_load b <= Battery.capacity b ->
  let b' := calc_battery_update ren_mw df_dc b in
  0 <= Battery.current_load b' <= Battery.capacity b' /\
  (ren_mw < df_dc -> df_dc - ren_mw <= Battery.capacity b').
Proof. exact (calc_battery_update_bounds ren_mw df_dc b). Qed.

Lemma calc_battery_update_inv_witness :
  0 <= Battery.current_load (Battery.mk 3 1) <= Battery.capacity (Battery.mk 3 1) /\
  (let b' := calc_battery_update 0 2 (Battery.mk 3 1) in
   0 <= Battery.current_load b' <= Battery.capacity b' /\
   (0 < 2 -> 2 - 0 <= Battery.capacity b')).
Proof.
  assert (H : 0 <= Battery.current_load (Battery.mk 3 1)
              <= Battery.capacity (Battery.mk 3 1))
    by (cbn [Battery.current_load Battery.capacity]; split; lra).
  split; [exact H|]. exact (calc_battery_update_inv 0 2 (Battery.mk 3 1) H).
Defined.

Lemma calc_loop_cap_bound (series : list (Q * Q)) :
  forall i s q0 q,
  0 <= Battery.current_load (c_b s) <= Battery.capacity (c_b s) ->
  c_battery_cap s = PNum q0 -> 0 <= q0 -> Battery.capacity (c_b s) <= q0 ->
  c_battery_cap (calc_loop i series s) = PNum q ->
  q0 <= q /\ Forall (fun p => snd p - fst p <= q) series.
Proof.
  induction series as [|[r d] rest IH]; intros i s q0 q Hb Hs Hq0 Hcq Hres.
  - cbn [calc_loop] in Hres. rewrite Hs in Hres. injection Hres as ->.
    split; [apply Qle_refl|constructor].
  - cbn [calc_loop] in Hres. unfold calc_body in Hres.
    pose proof (calc_battery_update_bounds r d (c_b s) Hb) as [Hb' Hdef].
    set (b := calc_battery_update r d (c_b s)) in *. cbv zeta in Hres.
    rewrite Hs in Hres.
    assert (Hcap : exists q1,
      (if Qltb 0 (Battery.capacity b) && py_ne (PNum q0) PNaN
       then pymax (PNum q0) (PNum (Battery.capacity b)) else PNum q0) = PNum q1 /\
      q0 <= q1 /\ Battery.capacity b <= q1 /\ d - r <= q1).
    { destruct (Qltb_cases 0 (Battery.capacity b)) as [[-> Hc]|[-> Hc]];
        cbn [andb py_ne py_eq negb].
      - unfold pymax, py_gt.
        destruct (Qltb_cases q0 (Battery.capacity b)) as [[-> Hl]|[-> Hl]];
          (eexists; split; [reflexivity|]);
          (destruct (Qlt_le_dec r d) as [Hrd|Hrd];
            [specialize (Hdef Hrd)|]); split_lra.
      - eexists; split; [reflexivity|].
        destruct (Qlt_le_dec r d) as [Hrd|Hrd];
          [specialize (Hdef Hrd)|]; split_lra. }
    destruct Hcap as [q1 [Hq1 [Hq01 [Hbq1 Hdq1]]]]. rewrite Hq1 in Hres.
    assert (Hnext : forall s', c_b s' = b -> c_battery_cap s' = PNum q1 ->
              c_battery_cap (calc_loop (S i) rest s') = PNum q ->
              q0 <= q /\ Forall (fun p => snd p - fst p <= q) ((r, d) :: rest)).
    { intros s' Eb Ec Hr.
      destruct (IH (S i) s' q1 q ltac:(rewrite Eb; exact Hb') Ec ltac:(lra)
                  ltac:(rewrite Eb; exact Hbq1) Hr) as [Hq Hf].
      split; [lra|]. constructor; [cbn [fst snd]; lra|exact Hf]. }
    destruct (Nat.eqb (Nat.modulo (Nat.add i 1) 72) 0).
    + destruct (Qltb (c_daily_net_load s + (r - d)) 0).
      * cbn in Hres. discriminate.
      * eapply Hnext; [| |exact Hres]; reflexivity.
    + eapply Hnext; [| |exact Hres]; reflexivity.
Qed.

(** A numeric result of [calculate_247_battery_capacity] is non-negative
    and covers the deficit [df_dc - ren_mw] of every single step. *)
Theorem calculate_247_battery_capacity_covers_steps (series : list (Q * Q)) (q : Q) :
  calculate_247_battery_capacity series = PNum q ->
  0 <= q /\ Forall (fun p => snd p - fst p <= q) series.
Proof.
  intros Hres.
  destruct (calc_loop_cap_bound series 0 calc_init 0 q) as [Hq Hf].
  - cbn [calc_init c_b Battery.current_load Battery.capacity]. split; lra.
  - reflexivity.
  - apply Qle_refl.
  - cbn [calc_init c_b Battery.capacity]. apply Qle_refl.
  - exact Hres.
  - split; [exact Hq|exact Hf].
Qed.

Lemma calculate_247_battery_capacity_covers_steps_witness :
  calculate_247_battery_capacity [(0, 2); (3, 0); (0, 1)] = PNum 2 /\
  0 <= 2 /\ Forall (fun p => snd p - fst p <= 2) [(0, 2); (3, 0); (0, 1)].
Proof.
  assert (H : calculate_247_battery_capacity [(0, 2); (3, 0); (0, 1)] = PNum 2)
    by (vm_compute; reflexivity).
  split; [exact H|].
  exact (calculate_247_battery_capacity_covers_steps _ 2 H).
Defined.

Lemma calc_loop_no_deficit (series : list (Q * Q)) :
  forall i dnl, 0 <= dnl ->
  Forall (fun p => snd p <= fst p) series ->
  c_battery_cap (calc_loop i series (mkc (Battery.mk 0 0) (PNum 0) dnl)) = PNum 0.
Proof.
  induction series as [|[r d] rest IH]; intros i dnl Hd Hf; [reflexivity|].
  inversion Hf as [|? ? Hrd Hf']; subst. cbn [fst snd] in Hrd.
  cbn [calc_loop]. unfold calc_body, calc_battery_update.
  cbn [c_b c_battery_cap c_daily_net_load Battery.capacity].
  destruct (Qltb_cases r d) as [[-> Hx]|[-> _]]; [exfalso; lra|].
  destruct (Qltb_cases 0 0) as [[-> Hx]|[-> _]]; [exfalso; lra|].
  unfold Battery.is_full. cbn [Battery.capacity Battery.current_load].
  rewrite (proj2 (Qeq_bool_iff 0 0) (Qeq_refl 0)).
  cbn [Battery.capacity andb].
  destruct (Nat.eqb (Nat.modulo (Nat.add i 1) 72) 0).
  - destruct (Qltb_cases (dnl + (r - d)) 0) as [[-> Hx]|[-> _]];
      [exfalso; lra|].
    apply IH; [apply Qle_refl|exact Hf'].
  - apply IH; [lra|exact Hf'].
Qed.

(** When no step draws more power than the renewable supply,
    [calculate_247_battery_capacity] never creates a battery and returns 0. *)
Theorem calculate_247_battery_capacity_no_deficit (series : list (Q * Q)) :
  Forall (fun p => snd p <= fst p) series ->
  calculate_247_battery_capacity series = PNum 0.
Proof.
  intros Hf. apply (calc_loop_no_deficit series 0 0 (Qle_refl 0) Hf).
Qed.

Lemma calculate_247_battery_capacity_no_deficit_witness :
  Forall (fun p => snd p <= fst p) [(2, 1); (1, 1); (5, 0)] /\
  calculate_247_battery_capacity [(2, 1); (1, 1); (5, 0)] = PNum 0.
Proof.
  assert (H : Forall (fun p => snd p <= fst p) [(2, 1); (1, 1); (5, 0)]).
  { repeat constructor; cbn; discriminate. }
  split; [exact H|]. exact (calculate_247_battery_capacity_no_deficit _ H).
Defined.

(** ** Edge behaviour of the default Battery2 and of the sizers *)

Lemma sizer_small_max {B : Type} `{BatteryOps B} (new_battery : Q -> Q -> B)
  (series : list (Q * Q)) (max_bsize : Q) :
  max_bsize <= 1 # 10 ->
  sim_battery_247 series (new_battery 0 0) = Ok false ->
  calculate_247_battery_capacity_sim new_battery series max_bsize = Ok PNaN.
Proof.
  intros Hm Hs. unfold calculate_247_battery_capacity_sim. rewrite Hs.
  cbn [rbind]. destruct (bs_fuel max_bsize); cbn [bs_loop];
    (destruct (Qltb_cases (1 # 10) (max_bsize - 0)) as [[_ Hx]|[-> _]];
      [exfalso; lra|]); cbn [rbind];
    rewrite (proj2 (Qeq_bool_iff max_bsize max_bsize) (Qeq_refl _));
    reflexivity.
Qed.

(** With [max_bsize <= 0.1] the binary search of either sizer tests no
    candidate: unless no battery is needed at all, the result is [nan],
    even when a battery of capacity [max_bsize] would pass. *)
Theorem calculate_247_battery_capacity_sim_small_max
  (series : list (Q * Q)) (max_bsize : Q) :
  max_bsize <= 1 # 10 ->
  (sim_battery_247 series (Battery.mk 0 0) = Ok false ->
     calculate_247_battery_capacity_b1_sim series max_bsize = Ok PNaN) /\
  (sim_battery_247 series (Battery2.init 0 0) = Ok false ->
     calculate_247_battery_capacity_b2_sim series max_bsize = Ok PNaN).
Proof.
  intros Hm. split; intros Hs; apply sizer_small_max; assumption.
Qed.

Lemma calculate_247_battery_capacity_sim_small_max_witness :
  (1 # 10 <= 1 # 10 /\
   sim_battery_247 [(0, 1 # 20)] (Battery.mk 0 0) = Ok false /\
   sim_battery_247 [(0, 1 # 20)] (Battery.mk (1 # 10) (1 # 10)) = Ok true) /\
  calculate_247_battery_capacity_b1_sim [(0, 1 # 20)] (1 # 10) = Ok PNaN.
Proof.
  assert (Hm : 1 # 10 <= 1 # 10) by lra.
  assert (Hs : sim_battery_247 [(0, 1 # 20)] (Battery.mk 0 0) = Ok false)
    by (vm_compute; reflexivity).
  assert (Hf : sim_battery_247 [(0, 1 # 20)] (Battery.mk (1 # 10) (1 # 10)) = Ok true)
    by (vm_compute; reflexivity).
  split; [exact (conj Hm (conj Hs Hf))|].
  exact (proj1 (calculate_247_battery_capacity_sim_small_max [(0, 1 # 20)] (1 # 10) Hm) Hs).
Defined.
